(** * pact-server: the in-memory pact table and its HTTP routes

    A shallow embedding of [src/index.ts]: the [Pact] record, the [DB]
    class (an object literal used as a string-keyed table), the three
    routes registered by [Server.routes] and the interval callback
    [Server.main].

    Everything a handler touches is passed explicitly: a handler is a
    function from the request and the service state to the response and
    the new state. *)

From Stdlib Require Import ZArith.
From stdpp Require Import base option gmap strings.

Open Scope string_scope.

(** ** JavaScript values seen by the service *)

(** [Pact] declares every field a [string]; a field the request body lacks
    reads as [undefined]. *)
Inductive jsval : Type :=
| JUndefined
| JStr (s : string).

#[global] Instance jsval_eq_dec : EqDecision jsval.
Proof. solve_decision. Defined.

(** A property key is a string: [obj[k]] converts [k] first. *)
Definition toPropertyKey (v : jsval) : string :=
  match v with
  | JUndefined => "undefined"
  | JStr s => s
  end.

(** [type Pact = { name, terms, address, transactionHash, blockHash }] *)
Record Pact : Type := mkPact {
  name : jsval;
  terms : jsval;
  address : jsval;
  transactionHash : jsval;
  blockHash : jsval
}.

#[global] Instance Pact_eq_dec : EqDecision Pact.
Proof. solve_decision. Defined.

(** What a property read on the table object can produce: a primitive, a
    stored pact object, or a member inherited from [Object.prototype]
    (a built-in function; for ["__proto__"] the prototype object itself). *)
Inductive value : Type :=
| VPrim (v : jsval)
| VPact (p : Pact)
| VBuiltin (member : string).

#[global] Instance value_eq_dec : EqDecision value.
Proof. solve_decision. Defined.

Definition undefined : value := VPrim JUndefined.

(** [!v] is [true] exactly when [truthy v] is [false]. *)
Definition truthy (v : value) : bool :=
  match v with
  | VPrim JUndefined => false
  | VPrim (JStr s) => negb (String.eqb s EmptyString)
  | VPact _ => true
  | VBuiltin _ => true
  end.

(** ** The object literal [{}] used as a table

    [this.db = {}] creates an ordinary object whose prototype is
    [Object.prototype], so [this.db[key]] walks the prototype chain and
    [this.db[key] = value] runs the [__proto__] setter for that one key. *)
Module Obj.

Record t : Type := mk {
  own : gmap string Pact;      (* own data properties *)
  proto : option Pact          (* [None]: Object.prototype; [Some p]: the
                                  pact object [p], itself on Object.prototype *)
}.

Definition empty : t := {| own := ∅; proto := None |}.

(** The property names of [Object.prototype]. *)
Definition objectPrototypeMembers : list string :=
  [ "constructor"; "__defineGetter__"; "__defineSetter__"; "hasOwnProperty";
    "__lookupGetter__"; "__lookupSetter__"; "isPrototypeOf";
    "propertyIsEnumerable"; "toString"; "valueOf"; "__proto__";
    "toLocaleString" ].

(** The own properties of a pact object literal. *)
Definition pactField (p : Pact) (key : string) : option jsval :=
  if decide (key = "name") then Some (name p)
  else if decide (key = "terms") then Some (terms p)
  else if decide (key = "address") then Some (address p)
  else if decide (key = "transactionHash") then Some (transactionHash p)
  else if decide (key = "blockHash") then Some (blockHash p)
  else None.

(** Lookup on [Object.prototype] with the table [o] as receiver. *)
Definition inherited (o : t) (key : string) : value :=
  if decide (key = "__proto__") then
    match proto o with
    | Some p => VPact p
    | None => VBuiltin key
    end
  else if decide (key ∈ objectPrototypeMembers) then VBuiltin key
  else undefined.

(** [o[key]] *)
Definition get (o : t) (key : string) : value :=
  match own o !! key with
  | Some p => VPact p
  | None =>
      match proto o ≫= (λ p, pactField p key) with
      | Some v => VPrim v
      | None => inherited o key
      end
  end.

(** [o[key] = value] for a pact object [value] *)
Definition set (o : t) (key : string) (value : Pact) : t :=
  match own o !! key with
  | Some _ => {| own := <[key := value]> (own o); proto := proto o |}
  | None =>
      if decide (key = "__proto__")
      then {| own := own o; proto := Some value |}
      else {| own := <[key := value]> (own o); proto := proto o |}
  end.

End Obj.

(** ** [class DB] *)
Module DB.

Record t : Type := mk { db : Obj.t }.

(** [constructor() { this.db = {} }] *)
Definition new : t := {| db := Obj.empty |}.

(** [async get(key) { return this.db[key] }] *)
Definition get (d : t) (key : string) : value := Obj.get (db d) key.

(** [async set(key, value) { this.db[key] = value }] *)
Definition set (d : t) (key : string) (value : Pact) : t :=
  {| db := Obj.set (db d) key value |}.

End DB.

(** ** Service state, options, requests and responses *)

(** [type State = { blockNumber: number; db: DB }]; [blockNumber] is never
    assigned by the service, hence optional. *)
Record State : Type := mkState {
  blockNumber : option Z;
  db : DB.t
}.

(** A log entry as the chain client reports it. *)
Record Log : Type := mkLog {
  logAddress : string;
  logTransactionHash : string;
  logBlockHash : string;
  logBlockNumber : Z
}.

(** The part of the RPC provider a tick could observe: the head height
    ([None] when the call fails or times out) and the logs. *)
Record Provider : Type := mkProvider {
  headHeight : option Z;
  logs : list Log
}.

(** [type Options = { rpcProvider: Provider; pactFactoryAddress: string }] *)
Record Options : Type := mkOptions {
  rpcProvider : Provider;
  pactFactoryAddress : string
}.

(** [req.body] and [req.query], parsed objects read field by field. *)
Record Request : Type := mkRequest {
  body : gmap string jsval;
  query : gmap string jsval
}.

Definition field (o : gmap string jsval) (k : string) : jsval :=
  default JUndefined (o !! k).

(** What [res.json(..)] is given. *)
Inductive payload : Type :=
| NoBody                      (* [json()] *)
| OkBody (ok : bool)          (* [json({ ok })] *)
| ValueBody (v : value).      (* [json(pact)] *)

Record Response : Type := mkResponse {
  status : nat;
  json : payload
}.

(** The state after [init]: [this.state.db = new DB()]. *)
Definition init : State := {| blockNumber := None; db := DB.new |}.

(** ** [Server.routes] *)

(** [router.get('/status', ...)] *)
Definition getStatus (req : Request) (st : State) : Response * State :=
  ({| status := 200; json := OkBody true |}, st).

(** The pact object literal built by the POST handler. *)
Definition pactOfBody (b : gmap string jsval) : Pact :=
  {| name := field b "name";
     terms := field b "terms";
     address := field b "address";
     transactionHash := field b "transactionHash";
     blockHash := field b "blockHash" |}.

(** [router.post('/pact', ...)] *)
Definition postPact (req : Request) (st : State) : Response * State :=
  let pact := pactOfBody (body req) in
  let db' := DB.set (db st) (toPropertyKey (address pact)) pact in
  ({| status := 200; json := NoBody |},
   {| blockNumber := blockNumber st; db := db' |}).

(** [router.get('/pact', ...)] *)
Definition getPact (req : Request) (st : State) : Response * State :=
  let address := field (query req) "address" in
  let pact := DB.get (db st) (toPropertyKey address) in
  if truthy pact
  then ({| status := 200; json := ValueBody pact |}, st)
  else ({| status := 404; json := NoBody |}, st).

(** ** [Server.main]

    The body holds comments only: the promise resolves and nothing is read
    or written. *)
Inductive outcome : Type := Resolved | Rejected.

Definition main (o : Options) (st : State) : outcome * State :=
  (Resolved, st).

(** ** Requests used in the statements *)

(** The key under which a POST stores its pact. *)
Definition postKey (req : Request) : string :=
  toPropertyKey (field (body req) "address").

(** [GET /pact?address=a] *)
Definition lookupRequest (a : string) : Request :=
  {| body := ∅; query := {[ "address" := JStr a ]} |}.

(** A metadata submission: the body carries address, name and terms. *)
Definition metadataRequest (a n t : string) : Request :=
  {| body := {[ "address" := JStr a; "name" := JStr n; "terms" := JStr t ]};
     query := ∅ |}.

(** A provenance submission: the body carries address, transactionHash and
    blockHash. *)
Definition provenanceRequest (a h b : string) : Request :=
  {| body := {[ "address" := JStr a; "transactionHash" := JStr h;
                "blockHash" := JStr b ]};
     query := ∅ |}.

(** Two provenance submissions for one address, with different hashes. *)
Definition first_submission : Request := provenanceRequest "0xABC" "0x01" "0x02".
Definition second_submission : Request := provenanceRequest "0xABC" "0x99" "0x98".

(** A field counts as filled when it is a string other than the empty one. *)
Definition nonEmpty (v : jsval) : Prop :=
  match v with
  | JUndefined => False
  | JStr s => s ≠ EmptyString
  end.

(** ** Statements compared with the code

    Each is the property as the specification words it, at one input. *)

(** Provenance already stored under the request's address survives the
    submission. *)
Definition provenance_kept (req : Request) (st : State) : Prop :=
  ∀ p, DB.get (db st) (postKey req) = VPact p →
    ∃ p', DB.get (db (postPact req st).2) (postKey req) = VPact p' ∧
          (nonEmpty (transactionHash p) → transactionHash p' = transactionHash p) ∧
          (nonEmpty (blockHash p) → blockHash p' = blockHash p).

(** Metadata then provenance ends in the same stored pact as provenance
    then metadata. *)
Definition merge_order_independent (a n t h b : string) (st : State) : Prop :=
  let m := metadataRequest a n t in
  let p := provenanceRequest a h b in
  DB.get (db (postPact p (postPact m st).2).2) a
  = DB.get (db (postPact m (postPact p st).2).2) a.

(** Metadata supplied earlier is still there after a provenance
    submission. *)
Definition metadata_survives (a n t h b : string) (st : State) : Prop :=
  ∃ p, DB.get (db (postPact (provenanceRequest a h b)
                     (postPact (metadataRequest a n t) st).2).2) a = VPact p ∧
       name p = JStr n ∧ terms p = JStr t.

(** A chain view for the end-to-end scenario: head at 110, one creation
    log at block 105 for [0xABC]. *)
Definition scenario_provider : Provider :=
  {| headHeight := Some 110%Z;
     logs := [ {| logAddress := "0xABC"; logTransactionHash := "0x7a";
                  logBlockHash := "0x69"; logBlockNumber := 105 |} ] |}.

Definition scenario_options : Options :=
  {| rpcProvider := scenario_provider; pactFactoryAddress := "0xFAC" |}.

(** ** The running service

    Each handler touches the table in one synchronous step (the body of
    [DB.get] and [DB.set] runs before the first [await] yields), so a run
    of the service is a sequence of whole requests and whole ticks. *)

(** The three routes [routes] registers. *)
Inductive route : Type := GET_status | POST_pact | GET_pact.

Definition handle (r : route) (req : Request) (st : State) : Response * State :=
  match r with
  | GET_status => getStatus req st
  | POST_pact => postPact req st
  | GET_pact => getPact req st
  end.

(** A request arrives on a route, or the loop calls [main]. *)
Inductive event : Type :=
| Arrives (r : route) (req : Request)
| Tick (o : Options).

Definition step (e : event) (st : State) : State :=
  match e with
  | Arrives r req => (handle r req st).2
  | Tick o => (main o st).2
  end.

Fixpoint run (es : list event) (st : State) : State :=
  match es with
  | [] => st
  | e :: es' => run es' (step e st)
  end.

(** The events that are submissions to [POST /pact]. *)
Definition isSubmission (e : event) : bool :=
  match e with
  | Arrives POST_pact _ => true
  | _ => false
  end.

(** The pact a submission to [key] carries. *)
Definition submittedTo (key : string) (e : event) : option Pact :=
  match e with
  | Arrives POST_pact req =>
      if decide (postKey req = key) then Some (pactOfBody (body req)) else None
  | _ => None
  end.

(** The pact of the latest submission to [key] among [es], if there is
    one. *)
Fixpoint lastSubmitted (key : string) (es : list event) : option Pact :=
  match es with
  | [] => None
  | e :: es' =>
      match lastSubmitted key es' with
      | Some p => Some p
      | None => submittedTo key e
      end
  end.

(** Every pact the table holds sits under the key its own address converts
    to. *)
Definition keyed_by_address (o : Obj.t) : Prop :=
  (∀ k p, Obj.own o !! k = Some p → toPropertyKey (address p) = k) ∧
  (∀ p, Obj.proto o = Some p → toPropertyKey (address p) = "__proto__").

(** ** The constructor's options

    [options: { loopIntervalMs: 2000, ...options }], where the caller's
    [options] may be omitted and, being [Partial], may hold a key with the
    value [undefined]. *)
Inductive optval : Type :=
| OUndefined
| ONum (n : Z)
| OStr (s : string)
| OProvider (p : Provider).

Definition constructorOptions (options : option (gmap string optval))
    : gmap string optval :=
  default ∅ options ∪ {[ "loopIntervalMs" := ONum 2000 ]}.

(** * Properties *)

(** ** The table object *)
Section ObjFacts.

Implicit Types (o : Obj.t) (key : string) (v : Pact).

Lemma pactField_proto v : Obj.pactField v "__proto__" = None.
Proof. reflexivity. Qed.

Lemma Obj_get_own o key v : Obj.own o !! key = Some v → Obj.get o key = VPact v.
Proof. intros H. unfold Obj.get. by rewrite H. Qed.

(** Reading back the key just assigned gives the assigned pact, for
    every key, ["__proto__"] included. *)
Lemma Obj_get_set o key v : Obj.get (Obj.set o key v) key = VPact v.
Proof.
  unfold Obj.set.
  destruct (Obj.own o !! key) as [w|] eqn:Hown.
  - apply Obj_get_own. simpl. apply lookup_insert_eq.
  - case_decide as Hk.
    + subst key. unfold Obj.get, Obj.inherited.
      cbn [Obj.own Obj.proto]. rewrite Hown.
      cbn [mbind option_bind]. rewrite pactField_proto.
      by rewrite decide_True.
    + apply Obj_get_own. simpl. apply lookup_insert_eq.
Qed.

(** A second assignment to the same key replaces the first. *)
Lemma Obj_set_set o key v w :
  Obj.set (Obj.set o key v) key w = Obj.set o key w.
Proof.
  unfold Obj.set.
  destruct (Obj.own o !! key) as [u|] eqn:Hown; simpl.
  - rewrite lookup_insert_eq. by rewrite insert_insert_eq.
  - case_decide as Hk; simpl.
    + by rewrite Hown.
    + rewrite lookup_insert_eq. by rewrite insert_insert_eq.
Qed.

(** A key that is neither stored nor inherited reads as [undefined]. *)
Lemma Obj_get_absent o key :
  Obj.own o !! key = None → Obj.proto o = None →
  key ∉ Obj.objectPrototypeMembers →
  Obj.get o key = undefined.
Proof.
  intros Hown Hproto Hmem. unfold Obj.get, Obj.inherited.
  rewrite Hown, Hproto. simpl.
  assert (key ≠ "__proto__") as Hk.
  { intros ->. apply Hmem. unfold Obj.objectPrototypeMembers. set_solver. }
  rewrite decide_False by done. by rewrite decide_False.
Qed.

(** A member of [Object.prototype] is found on the empty table. *)
Lemma Obj_get_inherited key :
  key ∈ Obj.objectPrototypeMembers → Obj.get Obj.empty key = VBuiltin key.
Proof.
  intros Hmem. unfold Obj.get, Obj.inherited. simpl.
  rewrite lookup_empty. simpl.
  case_decide; [done|]. by rewrite decide_True.
Qed.

End ObjFacts.

(** ** [DB] *)
Section DBFacts.

Implicit Types (d : DB.t) (key : string) (v : Pact).

Lemma DB_get_set d key v : DB.get (DB.set d key v) key = VPact v.
Proof. unfold DB.get, DB.set. simpl. apply Obj_get_set. Qed.

Lemma DB_set_set d key v w : DB.set (DB.set d key v) key w = DB.set d key w.
Proof. unfold DB.set. simpl. by rewrite Obj_set_set. Qed.

Lemma DB_get_new_absent key :
  key ∉ Obj.objectPrototypeMembers → DB.get DB.new key = undefined.
Proof. intros H. unfold DB.get, DB.new. simpl. by apply Obj_get_absent. Qed.

Lemma truthy_pact v : truthy (VPact v) = true.
Proof. reflexivity. Qed.

End DBFacts.

(** ** Handlers *)
Section HandlerFacts.

Implicit Types (req : Request) (st : State).

Lemma postPact_status req st : (postPact req st).1 = {| status := 200; json := NoBody |}.
Proof. reflexivity. Qed.

Lemma postPact_db req st :
  db (postPact req st).2 = DB.set (db st) (postKey req) (pactOfBody (body req)).
Proof. reflexivity. Qed.

Lemma postPact_blockNumber req st :
  blockNumber (postPact req st).2 = blockNumber st.
Proof. reflexivity. Qed.

(** After a submission the table holds the submitted pact under its
    address. *)
Lemma postPact_stored req st :
  DB.get (db (postPact req st).2) (postKey req) = VPact (pactOfBody (body req)).
Proof. rewrite postPact_db. apply DB_get_set. Qed.

(** A later submission to the same address hides the earlier one. *)
Lemma postPact_twice req1 req2 st :
  postKey req1 = postKey req2 →
  postPact req2 (postPact req1 st).2
  = ({| status := 200; json := NoBody |},
     {| blockNumber := blockNumber st;
        db := DB.set (db st) (postKey req2) (pactOfBody (body req2)) |}).
Proof.
  intros Hk. unfold postPact at 1. f_equal. f_equal.
  fold (postKey req2). rewrite postPact_db, Hk. apply DB_set_set.
Qed.

Lemma getPact_state req st : (getPact req st).2 = st.
Proof. unfold getPact. by destruct (truthy _). Qed.

Lemma lookupRequest_key a : toPropertyKey (field (query (lookupRequest a)) "address") = a.
Proof. unfold lookupRequest, field. simpl. by rewrite lookup_singleton_eq. Qed.

(** A stored pact is served with status 200. *)
Lemma getPact_found a p st :
  DB.get (db st) a = VPact p →
  getPact (lookupRequest a) st = ({| status := 200; json := ValueBody (VPact p) |}, st).
Proof. intros H. unfold getPact. rewrite lookupRequest_key, H. reflexivity. Qed.

(** An address that reads as [undefined] is answered with status 404. *)
Lemma getPact_missing a st :
  DB.get (db st) a = undefined →
  getPact (lookupRequest a) st = ({| status := 404; json := NoBody |}, st).
Proof. intros H. unfold getPact. rewrite lookupRequest_key, H. reflexivity. Qed.

Lemma main_unchanged o st : main o st = (Resolved, st).
Proof. reflexivity. Qed.

End HandlerFacts.

(** * The claims *)

(** ** Submissions through [POST /pact] *)

(** C1, counterexample. The pact stored for [0xABC] carries transaction
    hash [0x01]; a second submission with hash [0x99] replaces it, so the
    stored non-empty provenance is not kept. *)
Lemma C1_provenance_overwritten :
  ¬ provenance_kept second_submission (postPact first_submission init).2.
Proof.
  intros Hkept.
  destruct (Hkept (pactOfBody (body first_submission))) as (p' & Hget & Htx & _).
  { apply (postPact_stored first_submission init). }
  rewrite postPact_stored in Hget. injection Hget as <-.
  assert (nonEmpty (transactionHash (pactOfBody (body first_submission)))) as Hne.
  { vm_compute. discriminate. }
  apply Htx in Hne. vm_compute in Hne. discriminate.
Qed.

(** C1, as amended. The store write reached from a pact submission creates
    the pact when the address is absent and replaces it when present: every
    provenance field of the stored pact, empty or not before, is afterwards
    the value the submission carries. *)
Theorem C1_submission_replaces_provenance (req : Request) (st : State) :
  ∃ p', DB.get (db (postPact req st).2) (postKey req) = VPact p' ∧
        p' = pactOfBody (body req) ∧
        transactionHash p' = field (body req) "transactionHash" ∧
        blockHash p' = field (body req) "blockHash".
Proof.
  exists (pactOfBody (body req)). split; [apply postPact_stored|done].
Qed.

(** C2, counterexample. From the fresh state, metadata then provenance
    for [0xABC] leaves a pact without name and terms, provenance then
    metadata one without hashes: the two orders differ, and the metadata
    supplied first is gone. *)
Lemma C2_order_matters :
  ¬ merge_order_independent "0xABC" "Lease" "12mo" "0x01" "0x02" init ∧
  ¬ metadata_survives "0xABC" "Lease" "12mo" "0x01" "0x02" init.
Proof.
  split.
  - intros H. vm_compute in H. discriminate.
  - intros (p & Hget & Hname & _). vm_compute in Hget.
    injection Hget as <-. discriminate.
Qed.

(** C2, as amended. Of two submissions for the same address the later one
    decides the stored pact, whichever order they come in: the final pact
    is the one built from the second request's body alone. *)
Theorem C2_last_submission_decides (req1 req2 : Request) (st : State) :
  postKey req1 = postKey req2 →
  DB.get (db (postPact req2 (postPact req1 st).2).2) (postKey req1)
  = VPact (pactOfBody (body req2)) ∧
  DB.get (db (postPact req1 (postPact req2 st).2).2) (postKey req1)
  = VPact (pactOfBody (body req1)).
Proof.
  intros Hk. split.
  - rewrite Hk. apply postPact_stored.
  - apply postPact_stored.
Qed.

Lemma C2_last_submission_decides_witness :
  postKey (metadataRequest "0xABC" "Lease" "12mo")
  = postKey (provenanceRequest "0xABC" "0x01" "0x02") ∧
  (DB.get (db (postPact (provenanceRequest "0xABC" "0x01" "0x02")
                 (postPact (metadataRequest "0xABC" "Lease" "12mo") init).2).2)
     (postKey (metadataRequest "0xABC" "Lease" "12mo"))
   = VPact (pactOfBody (body (provenanceRequest "0xABC" "0x01" "0x02"))) ∧
   DB.get (db (postPact (metadataRequest "0xABC" "Lease" "12mo")
                 (postPact (provenanceRequest "0xABC" "0x01" "0x02") init).2).2)
     (postKey (metadataRequest "0xABC" "Lease" "12mo"))
   = VPact (pactOfBody (body (metadataRequest "0xABC" "Lease" "12mo")))).
Proof.
  split.
  - vm_compute. reflexivity.
  - apply (C2_last_submission_decides
             (metadataRequest "0xABC" "Lease" "12mo")
             (provenanceRequest "0xABC" "0x01" "0x02") init).
    vm_compute. reflexivity.
Defined.

(** C3. Applying the same submission twice leaves the service in the state
    one application leaves it in, with the same response; so does the store
    write itself, [DB.set], for every key and pact. *)
Theorem C3_resubmission_idempotent (req : Request) (st : State) :
  postPact req (postPact req st).2 = postPact req st ∧
  ∀ (d : DB.t) (key : string) (v : Pact),
    DB.set (DB.set d key v) key v = DB.set d key v.
Proof.
  split.
  - by rewrite postPact_twice.
  - intros d key v. apply DB_set_set.
Qed.

(** C4. A submission stores its pact under the address whether or not one
    was there; after two submissions for one address the stored name and
    terms are those of the second, and [GET /pact] serves that pact. *)
Theorem C4_metadata_last_writer_wins (req1 req2 : Request) (st : State) :
  postKey req1 = postKey req2 →
  DB.get (db (postPact req1 st).2) (postKey req1) = VPact (pactOfBody (body req1)) ∧
  ∃ p, let st2 := (postPact req2 (postPact req1 st).2).2 in
       DB.get (db st2) (postKey req2) = VPact p ∧
       name p = field (body req2) "name" ∧
       terms p = field (body req2) "terms" ∧
       getPact (lookupRequest (postKey req2)) st2
       = ({| status := 200; json := ValueBody (VPact p) |}, st2).
Proof.
  intros Hk. split; [apply postPact_stored|].
  exists (pactOfBody (body req2)). cbv zeta.
  pose proof (postPact_stored req2 (postPact req1 st).2) as Hget.
  split; [done|]. split; [done|]. split; [done|].
  by apply getPact_found.
Qed.

Lemma C4_metadata_last_writer_wins_witness :
  postKey (metadataRequest "0xABC" "Lease" "12mo")
  = postKey (metadataRequest "0xABC" "Sublease" "6mo") ∧
  ∃ p, DB.get (db (postPact (metadataRequest "0xABC" "Sublease" "6mo")
                     (postPact (metadataRequest "0xABC" "Lease" "12mo") init).2).2)
         "0xABC" = VPact p ∧
       name p = JStr "Sublease" ∧ terms p = JStr "6mo".
Proof.
  split.
  - vm_compute. reflexivity.
  - destruct (C4_metadata_last_writer_wins
                (metadataRequest "0xABC" "Lease" "12mo")
                (metadataRequest "0xABC" "Sublease" "6mo") init)
      as (_ & p & Hget & Hname & Hterms & _).
    { vm_compute. reflexivity. }
    exists p. split; [exact Hget|]. split; [exact Hname | exact Hterms].
Defined.

(** ** Reads through [GET /pact] and [DB.get] *)

(** C5, at the failing input. On the freshly initialised service nothing
    is stored under [constructor], yet [GET /pact?address=constructor]
    answers 200: the read finds the member inherited from
    [Object.prototype], which is truthy, and the 404 branch is skipped. *)
Theorem C5_inherited_address_served :
  Obj.own (DB.db (db init)) !! "constructor" = None ∧
  getPact (lookupRequest "constructor") init
  = ({| status := 200; json := ValueBody (VBuiltin "constructor") |}, init).
Proof. split; vm_compute; reflexivity. Qed.

(** For every other address the route behaves as specified: 404 when no
    pact is stored (and no pact was installed as prototype), 200 with the
    pact when one is stored; the state is never changed. *)
Lemma getPact_ordinary_address (a : string) (st : State) :
  a ∉ Obj.objectPrototypeMembers →
  Obj.proto (DB.db (db st)) = None →
  getPact (lookupRequest a) st
  = match Obj.own (DB.db (db st)) !! a with
    | Some p => ({| status := 200; json := ValueBody (VPact p) |}, st)
    | None => ({| status := 404; json := NoBody |}, st)
    end.
Proof.
  intros Hmem Hproto.
  destruct (Obj.own (DB.db (db st)) !! a) as [p|] eqn:Hown.
  - apply getPact_found. by apply Obj_get_own.
  - apply getPact_missing. by apply Obj_get_absent.
Qed.

(** C10, at the failing input. [DB.get] on the key [constructor], never
    written on a new [DB], does not return [undefined]: it returns the
    member inherited from [Object.prototype]. *)
Theorem C10_unwritten_key_inherited :
  Obj.own (DB.db DB.new) !! "constructor" = None ∧
  DB.get DB.new "constructor" = VBuiltin "constructor" ∧
  DB.get DB.new "constructor" ≠ undefined.
Proof.
  split; [vm_compute; reflexivity|].
  split; [vm_compute; reflexivity|].
  vm_compute. discriminate.
Qed.

(** The round trip itself holds for every key and pact, and a key outside
    [Object.prototype] reads as [undefined] on a new [DB]. *)
Lemma DB_round_trip (d : DB.t) (key : string) (v : Pact) :
  DB.get (DB.set d key v) key = VPact v.
Proof. apply DB_get_set. Qed.

(** ** [GET /status] *)

(** C9. Every request to [GET /status] is answered with status 200 and
    body [{ok: true}], whatever the store and the cursor hold, and leaves
    the state as it was. *)
Theorem C9_status_ok (req : Request) (st : State) :
  getStatus req st = ({| status := 200; json := OkBody true |}, st).
Proof. reflexivity. Qed.

(** ** The interval callback [main] *)


(** [main] never rejects: no tick fails. *)
Lemma main_resolves (o : Options) (st : State) : (main o st).1 = Resolved.
Proof. reflexivity. Qed.

Lemma main_never_rejects (o : Options) (st st' : State) :
  main o st ≠ (Rejected, st').
Proof. rewrite main_unchanged. intros [=]. Qed.

(** * Further properties of the table and the service *)

(** ** Assignments and reads at different keys *)
Section Frame.

Implicit Types (o : Obj.t) (d : DB.t) (k a : string) (v p : Pact).

Lemma Obj_own_set_ne o k a v :
  k ≠ a → Obj.own (Obj.set o k v) !! a = Obj.own o !! a.
Proof.
  intros Hne. unfold Obj.set.
  destruct (Obj.own o !! k); [|case_decide]; simpl;
    by rewrite ?lookup_insert_ne.
Qed.

Lemma Obj_proto_set_ordinary o k v :
  k ≠ "__proto__" → Obj.proto (Obj.set o k v) = Obj.proto o.
Proof.
  intros Hne. unfold Obj.set.
  destruct (Obj.own o !! k); [done|]. by rewrite decide_False.
Qed.

Lemma Obj_get_set_ne o k a v :
  k ≠ a → k ≠ "__proto__" → Obj.get (Obj.set o k v) a = Obj.get o a.
Proof.
  intros Hne Hk. unfold Obj.get, Obj.inherited.
  by rewrite Obj_own_set_ne, Obj_proto_set_ordinary.
Qed.

(** A read that yields a pact object found it as an own property, or is
    the read of [__proto__] on a table whose prototype is that pact. *)
Lemma Obj_get_pact_inv o a p :
  Obj.get o a = VPact p →
  Obj.own o !! a = Some p ∨
  (Obj.own o !! a = None ∧ a = "__proto__" ∧ Obj.proto o = Some p).
Proof.
  unfold Obj.get, Obj.inherited.
  destruct (Obj.own o !! a) as [q|]; [intros [= ->]; by left|].
  destruct (Obj.proto o ≫= _); [done|].
  case_decide as Ha; [|by case_decide].
  destruct (Obj.proto o); [|done]. intros [= ->]. by right.
Qed.

Lemma Obj_get_proto o p :
  Obj.own o !! "__proto__" = None → Obj.proto o = Some p →
  Obj.get o "__proto__" = VPact p.
Proof.
  intros Hown Hp. unfold Obj.get, Obj.inherited. by rewrite Hown, Hp.
Qed.

Lemma Obj_get_pact_set_ne o k a v p :
  k ≠ a → Obj.get o a = VPact p → Obj.get (Obj.set o k v) a = VPact p.
Proof.
  intros Hne Hget.
  destruct (Obj_get_pact_inv _ _ _ Hget) as [Hown|(Hown & -> & Hp)].
  - apply Obj_get_own. by rewrite Obj_own_set_ne.
  - apply Obj_get_proto.
    + by rewrite Obj_own_set_ne.
    + by rewrite Obj_proto_set_ordinary.
Qed.

Lemma Obj_set_comm o k1 k2 v1 v2 :
  k1 ≠ k2 →
  Obj.set (Obj.set o k1 v1) k2 v2 = Obj.set (Obj.set o k2 v2) k1 v1.
Proof.
  intros Hne.
  unfold Obj.set at 2 4.
  destruct (Obj.own o !! k1) as [u1|] eqn:H1;
    destruct (Obj.own o !! k2) as [u2|] eqn:H2;
    repeat case_decide; simplify_eq; unfold Obj.set; simpl;
    rewrite ?lookup_insert_ne by done; rewrite ?H1, ?H2; simpl;
    rewrite ?decide_True by done; rewrite ?decide_False by done.
  all: try reflexivity.
  all: f_equal; by apply insert_insert_ne.
Qed.

End Frame.

(** X1. An assignment through [DB.set] at a key other than [__proto__]
    leaves the read at every other key as it was. *)
Theorem DB_get_set_other (d : DB.t) (k a : string) (v : Pact) :
  k ≠ a → k ≠ "__proto__" → DB.get (DB.set d k v) a = DB.get d a.
Proof.
  intros Hne Hk. unfold DB.get, DB.set. simpl. by apply Obj_get_set_ne.
Qed.

Lemma DB_get_set_other_witness :
  "0xABC" ≠ "0xDEF" ∧ "0xABC" ≠ "__proto__" ∧
  DB.get (DB.set DB.new "0xABC" (pactOfBody (body first_submission))) "0xDEF"
  = DB.get DB.new "0xDEF".
Proof.
  split; [discriminate|]. split; [discriminate|].
  apply (DB_get_set_other DB.new "0xABC" "0xDEF"); discriminate.
Defined.

(** X2. Submissions to two different addresses commute: either order of
    the two [POST /pact] requests ends in the same service state. *)
Theorem postPact_commute (req1 req2 : Request) (st : State) :
  postKey req1 ≠ postKey req2 →
  (postPact req2 (postPact req1 st).2).2 = (postPact req1 (postPact req2 st).2).2.
Proof.
  intros Hne. unfold postPact. simpl. f_equal.
  unfold DB.set. simpl. f_equal. by apply Obj_set_comm.
Qed.

Lemma postPact_commute_witness :
  postKey (metadataRequest "0xABC" "Lease" "12mo")
  ≠ postKey (metadataRequest "0xDEF" "Loan" "24mo") ∧
  (postPact (metadataRequest "0xDEF" "Loan" "24mo")
     (postPact (metadataRequest "0xABC" "Lease" "12mo") init).2).2
  = (postPact (metadataRequest "0xABC" "Lease" "12mo")
       (postPact (metadataRequest "0xDEF" "Loan" "24mo") init).2).2.
Proof.
  split.
  - vm_compute. discriminate.
  - apply (postPact_commute (metadataRequest "0xABC" "Lease" "12mo")
             (metadataRequest "0xDEF" "Loan" "24mo") init).
    vm_compute. discriminate.
Defined.

(** X3. Assigning a pact at the key [__proto__] installs it as the table's
    prototype: each of its five fields then shows through as the value
    read at the key of that field's name, wherever the table has no own
    entry. *)
Theorem DB_set_proto_exposes_fields (d : DB.t) (v : Pact) (k : string) (x : jsval) :
  Obj.own (DB.db d) !! "__proto__" = None →
  Obj.own (DB.db d) !! k = None →
  Obj.pactField v k = Some x →
  DB.get (DB.set d "__proto__" v) k = VPrim x.
Proof.
  intros Hproto Hown Hfield.
  unfold DB.get, DB.set, Obj.get, Obj.set. simpl.
  rewrite Hproto. simpl. by rewrite Hown, Hfield.
Qed.

Lemma DB_set_proto_exposes_fields_witness :
  Obj.own (DB.db DB.new) !! "__proto__" = None ∧
  Obj.own (DB.db DB.new) !! "name" = None ∧
  Obj.pactField (pactOfBody (body (metadataRequest "__proto__" "Lease" "12mo")))
    "name" = Some (JStr "Lease") ∧
  DB.get (DB.set DB.new "__proto__"
            (pactOfBody (body (metadataRequest "__proto__" "Lease" "12mo"))))
    "name" = VPrim (JStr "Lease").
Proof.
  split; [vm_compute; reflexivity|].
  split; [vm_compute; reflexivity|].
  split; [vm_compute; reflexivity|].
  apply (DB_set_proto_exposes_fields DB.new
           (pactOfBody (body (metadataRequest "__proto__" "Lease" "12mo")))
           "name" (JStr "Lease")); vm_compute; reflexivity.
Defined.

(** ** Runs of the service *)
Section Runs.

Implicit Types (e : event) (es : list event) (st : State) (a : string) (p : Pact).

Lemma step_not_submission e st : isSubmission e = false → step e st = st.
Proof.
  destruct e as [[] req|o]; simpl; try done.
  intros _. apply getPact_state.
Qed.

Lemma submittedTo_Some a e p :
  submittedTo a e = Some p →
  ∃ req, e = Arrives POST_pact req ∧ postKey req = a ∧ p = pactOfBody (body req).
Proof.
  destruct e as [[] req|o]; simpl; try done.
  case_decide; [|done]. intros [= <-]. by exists req.
Qed.

Lemma step_keeps_pact e st a p :
  submittedTo a e = None →
  DB.get (db st) a = VPact p → DB.get (db (step e st)) a = VPact p.
Proof.
  intros Hsub Hget. destruct (isSubmission e) eqn:He.
  - destruct e as [[] req|o]; try done. simpl in *.
    case_decide as Hk; [done|].
    unfold DB.get, DB.set. simpl. by apply Obj_get_pact_set_ne.
  - by rewrite step_not_submission.
Qed.

Lemma step_frame e st a :
  submittedTo a e = None → submittedTo "__proto__" e = None →
  DB.get (db (step e st)) a = DB.get (db st) a.
Proof.
  intros Hsub Hproto. destruct (isSubmission e) eqn:He.
  - destruct e as [[] req|o]; try done. simpl in *.
    repeat case_decide; try done.
    unfold DB.get, DB.set. simpl. by apply Obj_get_set_ne.
  - by rewrite step_not_submission.
Qed.

Lemma lastSubmitted_cons_None a e es :
  lastSubmitted a (e :: es) = None →
  submittedTo a e = None ∧ lastSubmitted a es = None.
Proof. simpl. by destruct (lastSubmitted a es). Qed.

Lemma run_keeps_pact es st a p :
  lastSubmitted a es = None →
  DB.get (db st) a = VPact p → DB.get (db (run es st)) a = VPact p.
Proof.
  revert st. induction es as [|e es IH]; intros st Hlast Hget; [done|].
  apply lastSubmitted_cons_None in Hlast as [He Hes].
  simpl. apply IH; [done|]. by apply step_keeps_pact.
Qed.

Lemma keyed_by_address_set (o : Obj.t) (v : Pact) :
  keyed_by_address o →
  keyed_by_address (Obj.set o (toPropertyKey (address v)) v).
Proof.
  intros [Hown Hproto]. unfold Obj.set.
  assert (∀ k q, <[toPropertyKey (address v):=v]> (Obj.own o) !! k = Some q →
                 toPropertyKey (address q) = k) as Hins.
  { intros k q. rewrite lookup_insert. case_decide; [|apply Hown].
    intros [= <-]. done. }
  destruct (Obj.own o !! toPropertyKey (address v)); [by split|].
  case_decide as Hk; [|by split].
  split; [done|]. simpl. by intros q [= <-].
Qed.

Lemma keyed_by_address_step e st :
  keyed_by_address (DB.db (db st)) → keyed_by_address (DB.db (db (step e st))).
Proof.
  intros Hinv. destruct (isSubmission e) eqn:He.
  - destruct e as [[] req|o]; try done. simpl.
    apply (keyed_by_address_set _ (pactOfBody (body req)) Hinv).
  - by rewrite step_not_submission.
Qed.

Lemma keyed_by_address_run es st :
  keyed_by_address (DB.db (db st)) → keyed_by_address (DB.db (db (run es st))).
Proof.
  revert st. induction es as [|e es IH]; intros st Hinv; [done|].
  simpl. apply IH. by apply keyed_by_address_step.
Qed.

Lemma keyed_by_address_init : keyed_by_address (DB.db (db init)).
Proof. split; [intros k p|intros p]; simpl; [by rewrite lookup_empty|done]. Qed.

End Runs.

(** X4. Pacts are never removed. For requests whose fields are strings
    or absent, as [Pact] declares them: once the read at an address yields
    a pact, it yields a pact after any further such requests and ticks,
    and [GET /pact] for that address answers 200. *)
Theorem run_never_deletes (es : list event) (st : State) (a : string) (p : Pact) :
  DB.get (db st) a = VPact p →
  ∃ p', DB.get (db (run es st)) a = VPact p' ∧
        getPact (lookupRequest a) (run es st)
        = ({| status := 200; json := ValueBody (VPact p') |}, run es st).
Proof.
  revert st p. induction es as [|e es IH]; intros st p Hget.
  - exists p. split; [done|]. by apply getPact_found.
  - simpl. destruct (submittedTo a e) as [q|] eqn:Hsub.
    + apply submittedTo_Some in Hsub as (req & -> & <- & ->).
      apply (IH _ (pactOfBody (body req))). apply postPact_stored.
    + apply (IH _ p). by apply step_keeps_pact.
Qed.

Lemma run_never_deletes_witness :
  DB.get (db (postPact first_submission init).2) "0xABC"
  = VPact (pactOfBody (body first_submission)) ∧
  ∃ p', DB.get (db (run [Tick scenario_options;
                         Arrives POST_pact (metadataRequest "0xDEF" "Loan" "24mo")]
                      (postPact first_submission init).2)) "0xABC" = VPact p'.
Proof.
  split.
  - vm_compute. reflexivity.
  - destruct (run_never_deletes
                [Tick scenario_options;
                 Arrives POST_pact (metadataRequest "0xDEF" "Loan" "24mo")]
                (postPact first_submission init).2 "0xABC"
                (pactOfBody (body first_submission))) as (p' & Hget & _).
    { vm_compute. reflexivity. }
    exists p'. exact Hget.
Defined.

(** X5. Across any interleaving of requests and ticks the latest
    submission wins: the read at an address yields exactly the pact of the
    last [POST /pact] whose address converts to that key. *)
Theorem run_last_submission_wins (es : list event) (st : State) (a : string) (p : Pact) :
  lastSubmitted a es = Some p →
  DB.get (db (run es st)) a = VPact p.
Proof.
  revert st. induction es as [|e es IH]; intros st Hlast; [done|].
  simpl in *. destruct (lastSubmitted a es) as [q|] eqn:Hes.
  - apply IH. done.
  - apply submittedTo_Some in Hlast as (req & -> & <- & ->).
    apply run_keeps_pact; [done|]. apply postPact_stored.
Qed.

Lemma run_last_submission_wins_witness :
  lastSubmitted "0xABC"
    [Arrives POST_pact first_submission;
     Arrives GET_pact (lookupRequest "0xABC");
     Arrives POST_pact second_submission;
     Tick scenario_options;
     Arrives POST_pact (metadataRequest "0xDEF" "Loan" "24mo")]
  = Some (pactOfBody (body second_submission)) ∧
  DB.get (db (run [Arrives POST_pact first_submission;
                   Arrives GET_pact (lookupRequest "0xABC");
                   Arrives POST_pact second_submission;
                   Tick scenario_options;
                   Arrives POST_pact (metadataRequest "0xDEF" "Loan" "24mo")]
                init)) "0xABC"
  = VPact (pactOfBody (body second_submission)).
Proof.
  split.
  - vm_compute. reflexivity.
  - apply run_last_submission_wins. vm_compute. reflexivity.
Defined.

(** X6. An address nothing was submitted to reads after the run as it did
    before, provided nothing was submitted to [__proto__] either. *)
Theorem run_untouched_address (es : list event) (st : State) (a : string) :
  lastSubmitted a es = None →
  lastSubmitted "__proto__" es = None →
  DB.get (db (run es st)) a = DB.get (db st) a.
Proof.
  revert st. induction es as [|e es IH]; intros st Ha Hproto; [done|].
  apply lastSubmitted_cons_None in Ha as [Ha1 Ha2].
  apply lastSubmitted_cons_None in Hproto as [Hp1 Hp2].
  simpl. rewrite IH by done. by apply step_frame.
Qed.

Lemma run_untouched_address_witness :
  lastSubmitted "0xDEF" [Arrives POST_pact first_submission; Tick scenario_options] = None ∧
  lastSubmitted "__proto__" [Arrives POST_pact first_submission; Tick scenario_options] = None ∧
  DB.get (db (run [Arrives POST_pact first_submission; Tick scenario_options] init)) "0xDEF"
  = DB.get (db init) "0xDEF".
Proof.
  split; [vm_compute; reflexivity|].
  split; [vm_compute; reflexivity|].
  apply run_untouched_address; vm_compute; reflexivity.
Defined.

(** X7. Only submissions change the service: dropping every
    [GET /status], [GET /pact] and tick from a run leaves its final state
    the same. *)
Theorem run_only_submissions_matter (es : list event) (st : State) :
  run es st = run (List.filter isSubmission es) st.
Proof.
  revert st. induction es as [|e es IH]; intros st; [done|].
  simpl. destruct (isSubmission e) eqn:He; simpl.
  - apply IH.
  - rewrite step_not_submission by done. apply IH.
Qed.

(** X8. From the initialised service, after any requests and ticks, a
    pact read at a key carries an address that converts to that key: what
    [GET /pact?address=a] serves as a pact was submitted for [a]. *)
Theorem run_served_pact_has_address (es : list event) (a : string) (p : Pact) :
  DB.get (db (run es init)) a = VPact p →
  toPropertyKey (address p) = a.
Proof.
  intros Hget.
  destruct (keyed_by_address_run es init keyed_by_address_init) as [Hown Hproto].
  destruct (Obj_get_pact_inv _ _ _ Hget) as [Ho|(_ & -> & Hp)].
  - by apply Hown.
  - by apply Hproto.
Qed.

Lemma run_served_pact_has_address_witness :
  DB.get (db (run [Arrives POST_pact first_submission] init)) "0xABC"
  = VPact (pactOfBody (body first_submission)) ∧
  toPropertyKey (address (pactOfBody (body first_submission))) = "0xABC".
Proof.
  split.
  - vm_compute. reflexivity.
  - apply (run_served_pact_has_address [Arrives POST_pact first_submission]).
    vm_compute. reflexivity.
Defined.

(** X9. On the freshly initialised service [GET /pact] answers 404 for
    exactly the addresses that are not property names of
    [Object.prototype]. *)
Theorem getPact_init_404_iff (a : string) :
  status (getPact (lookupRequest a) init).1 = 404 ↔ a ∉ Obj.objectPrototypeMembers.
Proof.
  split.
  - intros Hst Hmem. unfold getPact in Hst.
    rewrite lookupRequest_key in Hst.
    unfold DB.get, init, DB.new in Hst. simpl in Hst.
    rewrite (Obj_get_inherited a Hmem) in Hst. simpl in Hst. discriminate.
  - intros Hmem. rewrite getPact_missing; [done|].
    by apply DB_get_new_absent.
Qed.

(** X10. A submission whose body has no address is stored under the key
    [undefined]; a [GET /pact] without address parameter, or with the
    address [undefined], is served that pact. *)
Theorem postPact_without_address (req q : Request) (st : State) :
  field (body req) "address" = JUndefined →
  field (query q) "address" = JUndefined ∨ field (query q) "address" = JStr "undefined" →
  getPact q (postPact req st).2
  = ({| status := 200; json := ValueBody (VPact (pactOfBody (body req))) |},
     (postPact req st).2).
Proof.
  intros Hreq Hq. unfold getPact.
  assert (toPropertyKey (field (query q) "address") = postKey req) as ->.
  { unfold postKey. rewrite Hreq. by destruct Hq as [-> | ->]. }
  by rewrite postPact_stored.
Qed.

Lemma postPact_without_address_witness :
  field (body {| body := {[ "name" := JStr "Lease" ]}; query := ∅ |}) "address"
  = JUndefined ∧
  (field (query {| body := ∅; query := ∅ |}) "address" = JUndefined ∨
   field (query {| body := ∅; query := ∅ |}) "address" = JStr "undefined") ∧
  status (getPact {| body := ∅; query := ∅ |}
            (postPact {| body := {[ "name" := JStr "Lease" ]}; query := ∅ |} init).2).1
  = 200.
Proof.
  split; [vm_compute; reflexivity|].
  split; [left; vm_compute; reflexivity|].
  rewrite (postPact_without_address
             {| body := {[ "name" := JStr "Lease" ]}; query := ∅ |}
             {| body := ∅; query := ∅ |} init).
  - reflexivity.
  - vm_compute. reflexivity.
  - left. vm_compute. reflexivity.
Defined.

(** X11. The options handed to the base service are the caller's, with
    [loopIntervalMs] defaulting to 2000 only when the caller's options do
    not hold that key at all: a supplied value, [undefined] included, is
    kept, and no other key is added. *)
Theorem constructorOptions_lookup (options : option (gmap string optval)) (k : string) :
  constructorOptions options !! k
  = match default ∅ options !! k with
    | Some v => Some v
    | None => if decide (k = "loopIntervalMs") then Some (ONum 2000) else None
    end.
Proof.
  unfold constructorOptions. rewrite lookup_union.
  destruct (default ∅ options !! k) as [v|]; simpl.
  - by destruct ({[ "loopIntervalMs" := ONum 2000 ]} !! k).
  - rewrite (left_id None _). case_decide as Hk.
    + subst k. apply lookup_singleton_eq.
    + by apply lookup_singleton_ne.
Qed.

(** X12. No request and no tick assigns [state.blockNumber]: after any
    run it is what it was. *)
Theorem run_blockNumber (es : list event) (st : State) :
  blockNumber (run es st) = blockNumber st.
Proof.
  revert st. induction es as [|e es IH]; intros st; [done|].
  simpl. rewrite IH. destruct e as [[] req|o]; simpl; try done.
  by rewrite getPact_state.
Qed.
